(** * powerapi.dispatcher.blocking_detector

    A shallow embedding of [src/powerapi/dispatcher/blocking_detector.py]
    and the properties of the [BlockingDetector] state machine.

    Python integers are unbounded, so identifiers are modelled in [Z].
    The attribute [last_poison_message_id] holds either [None] or an
    integer and is modelled as [option Z]; evaluating [None + 1] raises
    [TypeError], which the embedding keeps as an explicit outcome.
    Methods mutate [self]; they are modelled as functions from the
    detector before the call to an outcome carrying the detector after
    the call. *)

From Stdlib Require Import ZArith List Bool Lia FinFun.
Import ListNotations.

Local Open Scope Z_scope.

(** ** The [State] enumeration *)

Inductive State : Type :=
| INIT
| BLOCKED_INTER_1
| BLOCKED_INTER_2
| BLOCKED
| FINAL.

(** The integer each member of the enumeration is declared with. *)
Definition State_value (s : State) : Z :=
  match s with
  | INIT => 1
  | BLOCKED_INTER_1 => 2
  | BLOCKED_INTER_2 => 3
  | BLOCKED => 4
  | FINAL => 5
  end.

(** [==] on members of an [Enum] is identity of the member. *)
Definition State_eqb (a b : State) : bool :=
  match a, b with
  | INIT, INIT
  | BLOCKED_INTER_1, BLOCKED_INTER_1
  | BLOCKED_INTER_2, BLOCKED_INTER_2
  | BLOCKED, BLOCKED
  | FINAL, FINAL => true
  | _, _ => false
  end.

(** ** Messages

    [Report] is imported from [powerapi.report]; the detector reads a
    single attribute of it, [dispatcher_report_id]. *)

Record Report : Type := mkReport { dispatcher_report_id : Z }.

(** ** The detector object *)

Record BlockingDetector : Type := mkBlockingDetector {
  state : State;
  last_poison_message_id : option Z;
  max_id_value : Z;
  last_message_id : Z
}.

(** ** Method outcomes: a state and exception monad over [self] *)

Inductive PyExn : Type :=
| TypeError.

Inductive outcome (A : Type) : Type :=
| Returned (value : A) (self : BlockingDetector)
| Raised (exn : PyExn) (self : BlockingDetector).

Arguments Returned {A} value self.
Arguments Raised {A} exn self.

Definition method (A : Type) : Type := BlockingDetector -> outcome A.

Definition ret {A : Type} (a : A) : method A :=
  fun self => Returned a self.

Definition bind {A B : Type} (m : method A) (k : A -> method B) : method B :=
  fun self =>
    match m self with
    | Returned a self' => k a self'
    | Raised e self' => Raised e self'
    end.

Definition raise {A : Type} (e : PyExn) : method A :=
  fun self => Raised e self.

(** Reading an attribute of [self]. *)
Definition attr {A : Type} (f : BlockingDetector -> A) : method A :=
  fun self => Returned (f self) self.

(** Assignments to the attributes of [self]. *)
Definition set_state (s : State) : method unit :=
  fun self =>
    Returned tt (mkBlockingDetector s (last_poison_message_id self)
                   (max_id_value self) (last_message_id self)).

Definition set_last_poison_message_id (v : option Z) : method unit :=
  fun self =>
    Returned tt (mkBlockingDetector (state self) v
                   (max_id_value self) (last_message_id self)).

Definition set_last_message_id (v : Z) : method unit :=
  fun self =>
    Returned tt (mkBlockingDetector (state self) (last_poison_message_id self)
                   (max_id_value self) v).

(** [x + n] where [x] is [None] or an integer: [None + n] raises. *)
Definition py_add (x : option Z) (n : Z) : method Z :=
  match x with
  | Some v => ret (v + n)
  | None => raise TypeError
  end.

Declare Scope method_scope.
Delimit Scope method_scope with method.
Notation "x <- m ;; k" := (bind m (fun x => k))
  (at level 61, m at next level, right associativity) : method_scope.
Notation "m ;; k" := (bind m (fun _ => k))
  (at level 61, right associativity) : method_scope.
Local Open Scope method_scope.

(** ** The methods of [BlockingDetector] *)

Definition __init__ : BlockingDetector :=
  {| state := INIT;
     last_poison_message_id := None;
     max_id_value := 10000;
     last_message_id := 0 |}.

Definition notify_poison_received (message : Report) : method unit :=
  (st <- attr state ;;
   if State_eqb st INIT then
     set_state BLOCKED_INTER_1
   else
     last <- attr last_poison_message_id ;;
     successor <- py_add last 1 ;;
     if dispatcher_report_id message =? successor then
       st <- attr state ;;
       if State_eqb st BLOCKED_INTER_1 then set_state BLOCKED_INTER_2
       else if State_eqb st BLOCKED_INTER_2 then set_state BLOCKED
       else if State_eqb st BLOCKED then set_state FINAL
       else ret tt
     else
       st <- attr state ;;
       if negb (State_eqb st BLOCKED) && negb (State_eqb st FINAL) then
         set_state BLOCKED_INTER_1
       else ret tt) ;;
  max <- attr max_id_value ;;
  if dispatcher_report_id message =? max then
    set_last_poison_message_id (Some (-1))
  else
    set_last_poison_message_id (Some (dispatcher_report_id message)).

Definition is_blocked : method bool :=
  st <- attr state ;;
  ret (State_eqb st BLOCKED).

Definition get_message_id : method Z :=
  message_id <- attr last_message_id ;;
  (max <- attr max_id_value ;;
   if message_id =? max then set_last_message_id 0
   else
     cur <- attr last_message_id ;;
     set_last_message_id (cur + 1)) ;;
  ret message_id.

(** ** Sequences of calls *)

Inductive call : Type :=
| NotifyPoisonReceived (message : Report)
| IsBlocked
| GetMessageId.

Definition perform (c : call) : method unit :=
  match c with
  | NotifyPoisonReceived message => notify_poison_received message
  | IsBlocked => _ <- is_blocked ;; ret tt
  | GetMessageId => _ <- get_message_id ;; ret tt
  end.

Fixpoint perform_all (cs : list call) : method unit :=
  match cs with
  | [] => ret tt
  | c :: cs' => perform c ;; perform_all cs'
  end.

(** A detector is reachable when some finite sequence of method calls on
    a freshly constructed one returns normally and leaves it behind. *)
Definition reachable (d : BlockingDetector) : Prop :=
  exists cs, perform_all cs __init__ = Returned tt d.

(** Notifying a list of poison ids in order. *)
Fixpoint notify_all (ids : list Z) : method unit :=
  match ids with
  | [] => ret tt
  | i :: ids' => notify_poison_received (mkReport i) ;; notify_all ids'
  end.

(** Calling [get_message_id] [n] times and collecting what it returns. *)
Fixpoint get_message_ids (n : nat) : method (list Z) :=
  match n with
  | O => ret []
  | S n' =>
      i <- get_message_id ;;
      rest <- get_message_ids n' ;;
      ret (i :: rest)
  end.

(** The detector an outcome leaves behind, and whether it returned. *)
Definition self_after {A : Type} (o : outcome A) : BlockingDetector :=
  match o with
  | Returned _ d => d
  | Raised _ d => d
  end.

Definition returned {A : Type} (o : outcome A) : bool :=
  match o with
  | Returned _ _ => true
  | Raised _ _ => false
  end.

Definition in_id_space (d : BlockingDetector) (i : Z) : Prop :=
  0 <= i <= max_id_value d.

Definition call_in_id_space (d : BlockingDetector) (c : call) : Prop :=
  match c with
  | NotifyPoisonReceived message => in_id_space d (dispatcher_report_id message)
  | IsBlocked | GetMessageId => True
  end.

(** The value the last two branches of [notify_poison_received] leave
    in [last_poison_message_id]. *)
Definition stored_id (self : BlockingDetector) (message : Report) : Z :=
  if dispatcher_report_id message =? max_id_value self then -1
  else dispatcher_report_id message.

(** The invariant of reachable detectors: the bound is the constant
    set by the constructor, the outgoing counter stays below it, and
    [last_poison_message_id] is [None] exactly in the initial state. *)
Definition detector_inv (d : BlockingDetector) : Prop :=
  max_id_value d = 10000 /\
  0 <= last_message_id d <= max_id_value d /\
  (last_poison_message_id d = None <-> state d = INIT).

(** The range of the stored poison id when every notified id is in the
    identifier space: the sentinel [-1] or an id below the bound. *)
Definition stored_in_range (d : BlockingDetector) : Prop :=
  match last_poison_message_id d with
  | None => True
  | Some l => l = -1 \/ 0 <= l <= max_id_value d - 1
  end.

(** ** Successive identifiers and call traces *)

(** The counter [get_message_id] leaves behind after handing out [i]
    under the bound [max]: 0 after the bound, [i + 1] otherwise. *)
Definition next_id (max i : Z) : Z :=
  if i =? max then 0 else i + 1.

(** A list of ids that starts at [first] and in which every id is
    followed by its [next_id]. *)
Fixpoint chained (max first : Z) (ids : list Z) : Prop :=
  match ids with
  | [] => True
  | i :: rest => i = first /\ chained max (next_id max i) rest
  end.

(** The ids a sequence of calls notifies, in the order of the calls. *)
Fixpoint poison_ids (cs : list call) : list Z :=
  match cs with
  | [] => []
  | NotifyPoisonReceived message :: cs' =>
      dispatcher_report_id message :: poison_ids cs'
  | IsBlocked :: cs' | GetMessageId :: cs' => poison_ids cs'
  end.

Definition is_notification (c : call) : bool :=
  match c with
  | NotifyPoisonReceived _ => true
  | IsBlocked | GetMessageId => false
  end.

Definition is_probe (c : call) : bool :=
  match c with
  | GetMessageId => true
  | NotifyPoisonReceived _ | IsBlocked => false
  end.

(** A list of ids holds a run of three when an id, its [next_id] and
    the [next_id] of that one stand side by side in it. *)
Definition has_run3 (max : Z) (ids : list Z) : Prop :=
  exists before i after,
    ids = before ++ i :: next_id max i :: next_id max (next_id max i) :: after.

(** The same on a history kept most recent id first. *)
Fixpoint run3_rev (max : Z) (hist : list Z) : bool :=
  match hist with
  | [] => false
  | k :: t =>
      match t with
      | j :: i :: _ =>
          ((k =? next_id max j) && (j =? next_id max i)) || run3_rev max t
      | _ => false
      end
  end.

(** Two detectors that agree on what the poison branch reads and
    writes, and two that agree on what the counter reads and writes. *)
Definition same_poison_view (d e : BlockingDetector) : Prop :=
  state d = state e /\
  last_poison_message_id d = last_poison_message_id e /\
  max_id_value d = max_id_value e.

Definition same_counter_view (d e : BlockingDetector) : Prop :=
  last_message_id d = last_message_id e /\
  max_id_value d = max_id_value e.

(** What a history of notified ids, most recent first, tells about the
    detector it leaves: the stored id comes from the most recent one;
    the state is [BLOCKED] or [FINAL] once the history holds a run of
    three, and otherwise [BLOCKED_INTER_2] or [BLOCKED_INTER_1] as the
    two most recent ids are successive or not. *)
Definition history_inv (max : Z) (hist : list Z) (d : BlockingDetector) : Prop :=
  match hist with
  | [] => state d = INIT
  | x :: t =>
      last_poison_message_id d = Some (if x =? max then -1 else x) /\
      if run3_rev max hist then state d = BLOCKED \/ state d = FINAL
      else
        match t with
        | j :: _ =>
            if x =? next_id max j then state d = BLOCKED_INTER_2
            else state d = BLOCKED_INTER_1
        | [] => state d = BLOCKED_INTER_1
        end
  end.

(** Unfolding a method body down to tests on integers. *)
Ltac unfold_methods :=
  cbv [notify_poison_received is_blocked get_message_id perform
       bind ret raise attr py_add
       set_state set_last_poison_message_id set_last_message_id];
  cbn [state last_poison_message_id max_id_value last_message_id
       dispatcher_report_id State_eqb negb andb].

Ltac split_tests :=
  repeat (unfold_methods;
          match goal with
          | |- context [ ?a =? ?b ] => destruct (Z.eqb_spec a b)
          end);
  unfold_methods.

(** ** Concrete runs *)

Example run_42_43_44_99 :
  notify_all [42; 43; 44; 99] __init__ =
  Returned tt (mkBlockingDetector BLOCKED (Some 99) 10000 0).
Proof. reflexivity. Qed.

Example run_5_6_7_8 :
  notify_all [5; 6; 7; 8] __init__ =
  Returned tt (mkBlockingDetector FINAL (Some 8) 10000 0).
Proof. reflexivity. Qed.

Example run_wrap :
  notify_all [9999; 10000; 0] __init__ =
  Returned tt (mkBlockingDetector BLOCKED (Some 0) 10000 0).
Proof. reflexivity. Qed.

Example run_broken :
  notify_all [5; 6; 9] __init__ =
  Returned tt (mkBlockingDetector BLOCKED_INTER_1 (Some 9) 10000 0).
Proof. reflexivity. Qed.

(** Past the bound the sentinel breaks the run: 10001 is not the
    successor of the [-1] stored for 10000. *)
Example run_past_the_bound :
  notify_all [10000; 10001; 10002] __init__ =
  Returned tt (mkBlockingDetector BLOCKED_INTER_2 (Some 10002) 10000 0).
Proof. reflexivity. Qed.

Example none_plus_one_raises :
  notify_poison_received (mkReport 3)
    (mkBlockingDetector BLOCKED_INTER_1 None 10000 0) =
  Raised TypeError (mkBlockingDetector BLOCKED_INTER_1 None 10000 0).
Proof. reflexivity. Qed.

(** ** Basic facts about the embedding *)

Lemma State_eqb_spec (a b : State) : reflect (a = b) (State_eqb a b).
Proof. destruct a, b; constructor; congruence. Qed.

Lemma State_value_inj (a b : State) : State_value a = State_value b -> a = b.
Proof. destruct a, b; simpl; intros H; congruence. Qed.

(** What a notification does, branch by branch. *)

Lemma notify_from_INIT (message : Report) (self : BlockingDetector) :
  state self = INIT ->
  notify_poison_received message self =
  Returned tt (mkBlockingDetector BLOCKED_INTER_1
                 (Some (stored_id self message))
                 (max_id_value self) (last_message_id self)).
Proof.
  destruct self as [s l m c]; simpl; intros ->.
  unfold stored_id; unfold_methods; split_tests; reflexivity.
Qed.

Lemma notify_without_last (message : Report) (self : BlockingDetector) :
  state self <> INIT ->
  last_poison_message_id self = None ->
  notify_poison_received message self = Raised TypeError self.
Proof.
  destruct self as [s l m c]; simpl; intros Hs ->.
  destruct s; try congruence; reflexivity.
Qed.

Lemma notify_successor (message : Report) (self : BlockingDetector) (last : Z) :
  state self <> INIT ->
  last_poison_message_id self = Some last ->
  dispatcher_report_id message = last + 1 ->
  notify_poison_received message self =
  Returned tt (mkBlockingDetector
                 (match state self with
                  | BLOCKED_INTER_1 => BLOCKED_INTER_2
                  | BLOCKED_INTER_2 => BLOCKED
                  | BLOCKED => FINAL
                  | s => s
                  end)
                 (Some (stored_id self message))
                 (max_id_value self) (last_message_id self)).
Proof.
  destruct self as [s l m c], message as [i]; simpl; intros Hs -> ->.
  unfold stored_id; destruct s; try congruence;
    unfold_methods; split_tests; try reflexivity; lia.
Qed.

Lemma notify_broken_run (message : Report) (self : BlockingDetector) (last : Z) :
  state self <> INIT ->
  last_poison_message_id self = Some last ->
  dispatcher_report_id message <> last + 1 ->
  notify_poison_received message self =
  Returned tt (mkBlockingDetector
                 (match state self with
                  | BLOCKED => BLOCKED
                  | FINAL => FINAL
                  | _ => BLOCKED_INTER_1
                  end)
                 (Some (stored_id self message))
                 (max_id_value self) (last_message_id self)).
Proof.
  destruct self as [s l m c], message as [i]; simpl; intros Hs -> Hi.
  unfold stored_id; destruct s; try congruence;
    unfold_methods; split_tests; try reflexivity; lia.
Qed.

Lemma is_blocked_eq (self : BlockingDetector) :
  is_blocked self = Returned (State_eqb (state self) BLOCKED) self.
Proof. reflexivity. Qed.

Lemma get_message_id_eq (self : BlockingDetector) :
  get_message_id self =
  Returned (last_message_id self)
    (mkBlockingDetector (state self) (last_poison_message_id self)
       (max_id_value self)
       (if last_message_id self =? max_id_value self then 0
        else last_message_id self + 1)).
Proof.
  destruct self as [s l m c]; unfold_methods; split_tests; reflexivity.
Qed.

(** ** Invariants of reachable detectors *)

Section Reachability.

Lemma detector_inv_init : detector_inv __init__.
Proof.
  unfold detector_inv; simpl; repeat split; try lia; congruence.
Qed.

Lemma notify_returns (message : Report) (d : BlockingDetector) :
  detector_inv d ->
  exists d',
    notify_poison_received message d = Returned tt d' /\
    state d' <> INIT /\
    last_poison_message_id d' = Some (stored_id d message) /\
    max_id_value d' = max_id_value d /\
    last_message_id d' = last_message_id d.
Proof.
  intros (Hmax & Hcnt & Hnone).
  destruct (State_eqb_spec (state d) INIT) as [Hs | Hs].
  - rewrite (notify_from_INIT message d Hs).
    eexists; repeat split; simpl; congruence.
  - destruct (last_poison_message_id d) as [last |] eqn:Hl.
    + destruct (Z.eq_dec (dispatcher_report_id message) (last + 1)) as [Hi | Hi].
      * rewrite (notify_successor message d last Hs Hl Hi).
        eexists; repeat split; simpl; destruct (state d); congruence.
      * rewrite (notify_broken_run message d last Hs Hl Hi).
        eexists; repeat split; simpl; destruct (state d); congruence.
    + exfalso; apply Hs, Hnone; reflexivity.
Qed.

Lemma perform_returns (c : call) (d : BlockingDetector) :
  detector_inv d ->
  exists d', perform c d = Returned tt d' /\ detector_inv d'.
Proof.
  intros Hinv; destruct c as [message | |].
  - destruct (notify_returns message d Hinv)
      as (d' & Hrun & Hs & Hl & Hm & Hc).
    exists d'; split; [exact Hrun |].
    destruct Hinv as (Hmax & Hcnt & _).
    unfold detector_inv; rewrite Hm, Hc, Hl.
    repeat split; try tauto; try congruence.
  - exists d; split; [reflexivity | exact Hinv].
  - cbn [perform]; unfold bind at 1; rewrite get_message_id_eq.
    eexists; split; [reflexivity |].
    destruct Hinv as (Hmax & Hcnt & Hnone).
    unfold detector_inv; simpl.
    split; [exact Hmax |]; split; [| exact Hnone].
    destruct (Z.eqb_spec (last_message_id d) (max_id_value d)); lia.
Qed.

Lemma perform_all_returns (cs : list call) :
  forall d, detector_inv d ->
    exists d', perform_all cs d = Returned tt d' /\ detector_inv d'.
Proof.
  induction cs as [| c cs IH]; intros d Hinv.
  - exists d; split; [reflexivity | exact Hinv].
  - destruct (perform_returns c d Hinv) as (d1 & Hrun & Hinv1).
    destruct (IH d1 Hinv1) as (d2 & Hrun2 & Hinv2).
    exists d2; split; [| exact Hinv2].
    cbn [perform_all]; unfold bind; rewrite Hrun; exact Hrun2.
Qed.

Lemma reachable_inv (d : BlockingDetector) : reachable d -> detector_inv d.
Proof.
  intros [cs Hcs].
  destruct (perform_all_returns cs __init__ detector_inv_init)
    as (d' & Hrun & Hinv).
  rewrite Hrun in Hcs; injection Hcs as <-; exact Hinv.
Qed.

Lemma reachable_init : reachable __init__.
Proof. exists []; reflexivity. Qed.

Lemma perform_all_app (cs1 cs2 : list call) (d : BlockingDetector) :
  perform_all (cs1 ++ cs2) d = (perform_all cs1 ;; perform_all cs2) d.
Proof.
  revert d; induction cs1 as [| c cs1 IH]; intros d.
  - reflexivity.
  - cbn [app perform_all]; unfold bind.
    destruct (perform c d) as [[] d1 | e d1]; [| reflexivity].
    rewrite IH; reflexivity.
Qed.

Lemma reachable_step (c : call) (d d' : BlockingDetector) :
  reachable d -> perform c d = Returned tt d' -> reachable d'.
Proof.
  intros [cs Hcs] Hrun; exists (cs ++ [c]).
  rewrite perform_all_app; unfold bind; rewrite Hcs.
  cbn [perform_all]; unfold bind; rewrite Hrun; reflexivity.
Qed.

End Reachability.

(** ** The poison state machine *)

(** C1: when [last_poison_message_id] holds an integer and the notified
    id is that integer plus one, the call returns and moves
    [BLOCKED_INTER_1] to [BLOCKED_INTER_2], [BLOCKED_INTER_2] to
    [BLOCKED] and [BLOCKED] to [FINAL].  Hence, on a fresh detector,
    ids [a], [a + 1], [a + 2] of the identifier space lead through
    [BLOCKED_INTER_1] and [BLOCKED_INTER_2] to [BLOCKED]; [is_blocked]
    is false before and after the first two notifications and true
    after the third; and a fourth id [a + 3] of the identifier space
    leads to [FINAL], where [is_blocked] is false again. *)
Theorem notify_consecutive_advances :
  (forall (self : BlockingDetector) (message : Report) (last : Z),
      last_poison_message_id self = Some last ->
      dispatcher_report_id message = last + 1 ->
      exists self',
        notify_poison_received message self = Returned tt self' /\
        (state self = BLOCKED_INTER_1 -> state self' = BLOCKED_INTER_2) /\
        (state self = BLOCKED_INTER_2 -> state self' = BLOCKED) /\
        (state self = BLOCKED -> state self' = FINAL)) /\
  (forall a : Z,
      a + 2 <= max_id_value __init__ ->
      exists d1 d2 d3,
        notify_poison_received (mkReport a) __init__ = Returned tt d1 /\
        notify_poison_received (mkReport (a + 1)) d1 = Returned tt d2 /\
        notify_poison_received (mkReport (a + 2)) d2 = Returned tt d3 /\
        state d1 = BLOCKED_INTER_1 /\
        state d2 = BLOCKED_INTER_2 /\
        state d3 = BLOCKED /\
        is_blocked __init__ = Returned false __init__ /\
        is_blocked d1 = Returned false d1 /\
        is_blocked d2 = Returned false d2 /\
        is_blocked d3 = Returned true d3 /\
        (a + 3 <= max_id_value __init__ ->
         exists d4,
           notify_poison_received (mkReport (a + 3)) d3 = Returned tt d4 /\
           state d4 = FINAL /\
           is_blocked d4 = Returned false d4)).
Proof.
  split.
  - intros self message last Hl Hi.
    destruct (State_eqb_spec (state self) INIT) as [Hs | Hs].
    + rewrite (notify_from_INIT message self Hs).
      eexists; split; [reflexivity |].
      rewrite Hs; repeat split; discriminate.
    + rewrite (notify_successor message self last Hs Hl Hi).
      eexists; split; [reflexivity |].
      cbn [state]; repeat split; intros ->; reflexivity.
  - intros a Ha; cbn [max_id_value __init__] in Ha.
    exists (mkBlockingDetector BLOCKED_INTER_1 (Some a) 10000 0),
      (mkBlockingDetector BLOCKED_INTER_2 (Some (a + 1)) 10000 0),
      (mkBlockingDetector BLOCKED (Some (stored_id __init__ (mkReport (a + 2))))
         10000 0).
    repeat match goal with |- _ /\ _ => split end; try reflexivity.
    + rewrite notify_from_INIT by reflexivity.
      unfold stored_id; cbn [dispatcher_report_id max_id_value __init__].
      destruct (Z.eqb_spec a 10000); [lia | reflexivity].
    + rewrite (notify_successor _ _ a) by (reflexivity || discriminate).
      unfold stored_id; cbn [dispatcher_report_id max_id_value state].
      destruct (Z.eqb_spec (a + 1) 10000); [lia | reflexivity].
    + rewrite (notify_successor _ _ (a + 1));
        [reflexivity | discriminate | reflexivity |].
      cbn [dispatcher_report_id]; lia.
    + intros Ha3; cbn [max_id_value __init__] in Ha3.
      unfold stored_id; cbn [dispatcher_report_id max_id_value __init__].
      destruct (Z.eqb_spec (a + 2) 10000); [lia |].
      rewrite (notify_successor _ _ (a + 2));
        [| discriminate | reflexivity | cbn [dispatcher_report_id]; lia].
      eexists; repeat split.
Qed.

Lemma notify_consecutive_advances_witness :
  (exists self',
      notify_poison_received (mkReport 6)
        (mkBlockingDetector BLOCKED_INTER_2 (Some 5) 10000 0) =
      Returned tt self' /\ state self' = BLOCKED) /\
  5 + 2 <= max_id_value __init__ /\
  5 + 3 <= max_id_value __init__ /\
  exists d3 d4,
    notify_all [5; 6; 7] __init__ = Returned tt d3 /\
    state d3 = BLOCKED /\
    notify_poison_received (mkReport 8) d3 = Returned tt d4 /\
    state d4 = FINAL.
Proof.
  split; [| split; [simpl; lia | split; [simpl; lia |]]].
  - destruct (proj1 notify_consecutive_advances
                (mkBlockingDetector BLOCKED_INTER_2 (Some 5) 10000 0)
                (mkReport 6) 5 eq_refl eq_refl)
      as (self' & Hrun & _ & H2 & _).
    exists self'; split; [exact Hrun | exact (H2 eq_refl)].
  - destruct (proj2 notify_consecutive_advances 5)
      as (d1 & d2 & d3 & H1 & H2 & H3 & _ & _ & Hs3 & _ & _ & _ & _ & H4);
      [simpl; lia |].
    destruct H4 as (d4 & H4 & Hs4 & _); [simpl; lia |].
    change (5 + 1) with 6 in H2; change (5 + 2) with 7 in H3.
    change (5 + 3) with 8 in H4.
    exists d3, d4; repeat split; try assumption.
    cbn [notify_all]; unfold bind; rewrite H1, H2, H3; reflexivity.
Defined.

(** C2: outside [INIT], when [last_poison_message_id] holds an integer
    and the notified id differs from that integer plus one, the call
    returns with state [BLOCKED_INTER_1] if the state was
    [BLOCKED_INTER_1] or [BLOCKED_INTER_2], and with the state unchanged
    if it was [BLOCKED] or [FINAL]. *)
Theorem notify_broken_run_resets :
  forall (self : BlockingDetector) (message : Report) (last : Z),
    state self <> INIT ->
    last_poison_message_id self = Some last ->
    dispatcher_report_id message <> last + 1 ->
    exists self',
      notify_poison_received message self = Returned tt self' /\
      (state self = BLOCKED_INTER_1 \/ state self = BLOCKED_INTER_2 ->
       state self' = BLOCKED_INTER_1) /\
      (state self = BLOCKED \/ state self = FINAL ->
       state self' = state self).
Proof.
  intros self message last Hs Hl Hi.
  rewrite (notify_broken_run message self last Hs Hl Hi).
  eexists; split; [reflexivity |].
  cbn [state]; split; intros [-> | ->]; reflexivity.
Qed.

Lemma notify_broken_run_resets_witness :
  exists self',
    notify_poison_received (mkReport 9)
      (mkBlockingDetector BLOCKED_INTER_2 (Some 6) 10000 0) =
    Returned tt self' /\
    state self' = BLOCKED_INTER_1.
Proof.
  destruct (notify_broken_run_resets
              (mkBlockingDetector BLOCKED_INTER_2 (Some 6) 10000 0)
              (mkReport 9) 6)
    as (self' & Hrun & Hreset & _);
    [discriminate | reflexivity | simpl; lia |].
  exists self'; split; [exact Hrun | apply Hreset; right; reflexivity].
Defined.

Lemma notify_stores (message : Report) (self self' : BlockingDetector) :
  notify_poison_received message self = Returned tt self' ->
  last_poison_message_id self' = Some (stored_id self message).
Proof.
  destruct (State_eqb_spec (state self) INIT) as [Hs | Hs].
  - rewrite (notify_from_INIT message self Hs).
    intros H; injection H as <-; reflexivity.
  - destruct (last_poison_message_id self) as [last |] eqn:Hl.
    + destruct (Z.eq_dec (dispatcher_report_id message) (last + 1)) as [Hi | Hi].
      * rewrite (notify_successor message self last Hs Hl Hi).
        intros H; injection H as <-; reflexivity.
      * rewrite (notify_broken_run message self last Hs Hl Hi).
        intros H; injection H as <-; reflexivity.
    + rewrite (notify_without_last message self Hs Hl); discriminate.
Qed.

(** C3: every notification that returns leaves [-1] in
    [last_poison_message_id] when the id equals [max_id_value] and the
    id itself otherwise, and on a reachable detector (where the bound is
    10000) every notification returns.  After a notification of 10000
    the stored value is [-1], so a following 0 passes the successor test
    and takes the transition of the consecutive branch, the one a 6
    takes after a 5 from the same state. *)
Theorem last_poison_id_stored :
  (forall (self self' : BlockingDetector) (message : Report),
      notify_poison_received message self = Returned tt self' ->
      last_poison_message_id self' =
      Some (if dispatcher_report_id message =? max_id_value self then -1
            else dispatcher_report_id message)) /\
  (forall (self : BlockingDetector) (message : Report),
      reachable self ->
      exists self',
        notify_poison_received message self = Returned tt self' /\
        last_poison_message_id self' =
        Some (if dispatcher_report_id message =? 10000 then -1
              else dispatcher_report_id message)) /\
  (forall self : BlockingDetector,
      reachable self ->
      exists d1 d2,
        notify_poison_received (mkReport 10000) self = Returned tt d1 /\
        last_poison_message_id d1 = Some (-1) /\
        notify_poison_received (mkReport 0) d1 = Returned tt d2 /\
        (state d1 = BLOCKED_INTER_1 -> state d2 = BLOCKED_INTER_2) /\
        (state d1 = BLOCKED_INTER_2 -> state d2 = BLOCKED) /\
        (state d1 = BLOCKED -> state d2 = FINAL) /\
        (state d1 = FINAL -> state d2 = FINAL) /\
        forall other : BlockingDetector,
          reachable other ->
          exists e1 e2,
            notify_poison_received (mkReport 5) other = Returned tt e1 /\
            last_poison_message_id e1 = Some 5 /\
            notify_poison_received (mkReport 6) e1 = Returned tt e2 /\
            (state e1 = state d1 -> state e2 = state d2)).
Proof.
  split; [| split].
  - intros self self' message Hrun.
    exact (notify_stores message self self' Hrun).
  - intros self message Hreach.
    pose proof (reachable_inv self Hreach) as Hinv.
    destruct (notify_returns message self Hinv) as (d' & Hrun & _ & Hl & _).
    exists d'; split; [exact Hrun |].
    rewrite Hl; unfold stored_id.
    destruct Hinv as (-> & _); reflexivity.
  - intros self Hreach.
    pose proof (reachable_inv self Hreach) as Hinv.
    destruct (notify_returns (mkReport 10000) self Hinv)
      as (d1 & Hrun1 & Hs1 & Hl1 & Hm1 & _).
    assert (Hmax : max_id_value self = 10000) by apply Hinv.
    unfold stored_id in Hl1; rewrite Hmax in Hl1.
    cbn [dispatcher_report_id] in Hl1; change (10000 =? 10000) with true in Hl1.
    cbv iota in Hl1.
    exists d1; eexists.
    split; [exact Hrun1 |]; split; [exact Hl1 |].
    split; [apply (notify_successor _ _ (-1) Hs1 Hl1); reflexivity |].
    cbn [state].
    repeat match goal with |- _ /\ _ => split end;
      try (intros ->; reflexivity).
    intros other Hother.
    pose proof (reachable_inv other Hother) as Hinv'.
    destruct (notify_returns (mkReport 5) other Hinv')
      as (e1 & Hrun5 & Hs5 & Hl5 & _).
    assert (Hmax' : max_id_value other = 10000) by apply Hinv'.
    unfold stored_id in Hl5; rewrite Hmax' in Hl5.
    cbn [dispatcher_report_id] in Hl5; change (5 =? 10000) with false in Hl5.
    cbv iota in Hl5.
    exists e1; eexists.
    split; [exact Hrun5 |]; split; [exact Hl5 |].
    split; [apply (notify_successor _ _ 5 Hs5 Hl5); reflexivity |].
    cbn [state]; intros ->; reflexivity.
Qed.

Lemma last_poison_id_stored_witness :
  last_poison_message_id
    (self_after (notify_poison_received (mkReport 10000) __init__)) =
  Some (-1) /\
  exists d1 d2,
    notify_poison_received (mkReport 10000) __init__ = Returned tt d1 /\
    notify_poison_received (mkReport 0) d1 = Returned tt d2 /\
    state d2 = BLOCKED_INTER_2.
Proof.
  split.
  - exact (proj1 last_poison_id_stored __init__ _ (mkReport 10000) eq_refl).
  - destruct (proj2 (proj2 last_poison_id_stored) __init__ reachable_init)
      as (d1 & d2 & H1 & _ & H2 & Hadv & _).
    exists d1, d2; split; [exact H1 |]; split; [exact H2 |].
    apply Hadv; injection H1 as <-; reflexivity.
Defined.

(** C4: [is_blocked] returns [true] exactly when the state is
    [BLOCKED]; in [INIT], [BLOCKED_INTER_1], [BLOCKED_INTER_2] and
    [FINAL] it returns [false]. *)
Theorem is_blocked_iff_BLOCKED :
  forall self : BlockingDetector,
  exists b : bool,
    is_blocked self = Returned b self /\
    (b = true <-> state self = BLOCKED) /\
    (state self = INIT \/ state self = BLOCKED_INTER_1 \/
     state self = BLOCKED_INTER_2 \/ state self = FINAL <-> b = false).
Proof.
  intros self; exists (State_eqb (state self) BLOCKED).
  split; [apply is_blocked_eq |].
  destruct (state self); cbn [State_eqb]; intuition congruence.
Qed.

Lemma perform_keeps_FINAL (c : call) (d : BlockingDetector) :
  state d = FINAL -> state (self_after (perform c d)) = FINAL.
Proof.
  intros Hs; destruct c as [message | |].
  - assert (Hn : state d <> INIT) by congruence.
    cbn [perform].
    destruct (last_poison_message_id d) as [last |] eqn:Hl.
    + destruct (Z.eq_dec (dispatcher_report_id message) (last + 1)) as [Hi | Hi].
      * rewrite (notify_successor message d last Hn Hl Hi).
        cbn [self_after state]; rewrite Hs; reflexivity.
      * rewrite (notify_broken_run message d last Hn Hl Hi).
        cbn [self_after state]; rewrite Hs; reflexivity.
    + rewrite (notify_without_last message d Hn Hl); exact Hs.
  - exact Hs.
  - cbn [perform]; unfold bind at 1; rewrite get_message_id_eq; exact Hs.
Qed.

Lemma perform_all_keeps_FINAL (cs : list call) :
  forall d, state d = FINAL -> state (self_after (perform_all cs d)) = FINAL.
Proof.
  induction cs as [| c cs IH]; intros d Hs; [exact Hs |].
  cbn [perform_all]; unfold bind.
  pose proof (perform_keeps_FINAL c d Hs) as Hc.
  destruct (perform c d) as [[] d1 | e d1]; cbn [self_after] in Hc.
  - apply IH; exact Hc.
  - exact Hc.
Qed.

(** C5: from a detector in state [FINAL] a notification of any id
    leaves the state [FINAL], and so does every finite sequence of
    calls; on a reachable detector each of these calls returns. *)
Theorem FINAL_is_terminal :
  forall self : BlockingDetector,
    state self = FINAL ->
    (forall message : Report,
        state (self_after (notify_poison_received message self)) = FINAL) /\
    (forall cs : list call,
        state (self_after (perform_all cs self)) = FINAL) /\
    (reachable self ->
     forall cs : list call,
     exists self',
       perform_all cs self = Returned tt self' /\ state self' = FINAL).
Proof.
  intros self Hs; split; [| split].
  - intros message.
    exact (perform_keeps_FINAL (NotifyPoisonReceived message) self Hs).
  - intros cs; exact (perform_all_keeps_FINAL cs self Hs).
  - intros Hreach cs.
    destruct (perform_all_returns cs self (reachable_inv self Hreach))
      as (d' & Hrun & _).
    exists d'; split; [exact Hrun |].
    pose proof (perform_all_keeps_FINAL cs self Hs) as Hk.
    rewrite Hrun in Hk; exact Hk.
Qed.

Lemma FINAL_is_terminal_witness :
  state (mkBlockingDetector FINAL (Some 8) 10000 0) = FINAL /\
  reachable (mkBlockingDetector FINAL (Some 8) 10000 0) /\
  exists self',
    perform_all
      [NotifyPoisonReceived (mkReport 9); GetMessageId;
       NotifyPoisonReceived (mkReport 3); IsBlocked;
       NotifyPoisonReceived (mkReport 4)]
      (mkBlockingDetector FINAL (Some 8) 10000 0) = Returned tt self' /\
    state self' = FINAL.
Proof.
  assert (Hreach : reachable (mkBlockingDetector FINAL (Some 8) 10000 0)).
  { exists [NotifyPoisonReceived (mkReport 5); NotifyPoisonReceived (mkReport 6);
            NotifyPoisonReceived (mkReport 7); NotifyPoisonReceived (mkReport 8)].
    reflexivity. }
  split; [reflexivity |]; split; [exact Hreach |].
  exact (proj2 (proj2 (FINAL_is_terminal
                         (mkBlockingDetector FINAL (Some 8) 10000 0)
                         eq_refl)) Hreach _).
Defined.

(** ** The outgoing message-id counter *)

Lemma get_message_ids_app (n m : nat) :
  forall d,
    get_message_ids (n + m) d =
    (l1 <- get_message_ids n ;; l2 <- get_message_ids m ;; ret (l1 ++ l2)) d.
Proof.
  induction n as [| n IH]; intros d.
  - cbn [Nat.add get_message_ids]; unfold bind, ret.
    destruct (get_message_ids m d); reflexivity.
  - cbn [Nat.add get_message_ids]; unfold bind at 1 2 3 4 5.
    rewrite get_message_id_eq; rewrite IH; unfold bind, ret.
    destruct (get_message_ids n _) as [l1 d1 | e d1]; [| reflexivity].
    destruct (get_message_ids m d1); reflexivity.
Qed.

(** Below the bound the counter hands out a run of successive ids. *)
Lemma get_message_ids_below_bound (n : nat) :
  forall d,
    last_message_id d + Z.of_nat n <= max_id_value d ->
    get_message_ids n d =
    Returned (map (fun i => last_message_id d + Z.of_nat i) (seq 0 n))
      (mkBlockingDetector (state d) (last_poison_message_id d)
         (max_id_value d) (last_message_id d + Z.of_nat n)).
Proof.
  induction n as [| n IH]; intros d Hle.
  - cbn [get_message_ids seq map]; unfold ret.
    destruct d as [s l m c]; cbn; rewrite Z.add_0_r; reflexivity.
  - cbn [get_message_ids]; unfold bind at 1; rewrite get_message_id_eq.
    destruct (Z.eqb_spec (last_message_id d) (max_id_value d)) as [He | He];
      [lia |].
    unfold bind; rewrite IH by (cbn [last_message_id max_id_value]; lia).
    unfold ret; cbn [state last_poison_message_id max_id_value last_message_id].
    f_equal.
    + cbn [seq map]; rewrite Z.add_0_r; f_equal.
      rewrite <- seq_shift, map_map.
      apply map_ext; intros i; lia.
    + f_equal; lia.
Qed.

Lemma get_message_ids_cycle (d : BlockingDetector) :
  last_message_id d = 0 ->
  0 <= max_id_value d ->
  get_message_ids (Z.to_nat (max_id_value d + 1)) d =
  Returned (map Z.of_nat (seq 0 (Z.to_nat (max_id_value d + 1)))) d.
Proof.
  intros H0 Hmax.
  replace (Z.to_nat (max_id_value d + 1))
    with (Z.to_nat (max_id_value d) + 1)%nat by lia.
  rewrite get_message_ids_app; unfold bind at 1.
  rewrite get_message_ids_below_bound by lia.
  cbn [get_message_ids]; unfold bind, ret; rewrite get_message_id_eq.
  cbn [state last_poison_message_id max_id_value last_message_id].
  rewrite H0, Z.add_0_l, Z2Nat.id by exact Hmax.
  rewrite Z.eqb_refl, seq_app, map_app.
  destruct d as [s l m c]; cbn [last_message_id] in H0; subst c.
  cbn [state last_poison_message_id max_id_value Nat.add seq map].
  rewrite Z2Nat.id by exact Hmax.
  reflexivity.
Qed.

Lemma NoDup_ids (n : nat) : NoDup (map Z.of_nat (seq 0 n)).
Proof.
  apply Injective_map_NoDup; [| apply seq_NoDup].
  intros i j Hij; lia.
Qed.

(** C6: [get_message_id] returns the current counter and leaves 0 in
    it when the returned value equals [max_id_value], the value plus
    one otherwise.  Called 10001 times on a fresh detector it returns
    0, 1, ..., 10000 in this order, a list without repetition, and the
    detector is back in its initial configuration, from which the next
    call returns 0.  In every reachable detector the counter lies
    between 0 and [max_id_value], which is 10000. *)
Theorem get_message_id_cycles :
  (forall self : BlockingDetector,
      get_message_id self =
      Returned (last_message_id self)
        (mkBlockingDetector (state self) (last_poison_message_id self)
           (max_id_value self)
           (if last_message_id self =? max_id_value self then 0
            else last_message_id self + 1))) /\
  (get_message_ids (Z.to_nat 10001) __init__ =
   Returned (map Z.of_nat (seq 0 (Z.to_nat 10001))) __init__ /\
   length (map Z.of_nat (seq 0 (Z.to_nat 10001))) = Z.to_nat 10001 /\
   (forall i : nat,
       (i < Z.to_nat 10001)%nat ->
       nth i (map Z.of_nat (seq 0 (Z.to_nat 10001))) 0 = Z.of_nat i) /\
   NoDup (map Z.of_nat (seq 0 (Z.to_nat 10001))) /\
   exists d, get_message_id __init__ = Returned 0 d) /\
  (forall self : BlockingDetector,
      reachable self ->
      max_id_value self = 10000 /\
      0 <= last_message_id self <= max_id_value self).
Proof.
  split; [exact get_message_id_eq | split].
  - split; [| split; [| split; [| split]]].
    + exact (get_message_ids_cycle __init__ eq_refl ltac:(simpl; lia)).
    + rewrite length_map, length_seq; reflexivity.
    + intros i Hi.
      rewrite (nth_indep _ 0 (Z.of_nat 0))
        by (rewrite length_map, length_seq; exact Hi).
      rewrite map_nth, seq_nth by exact Hi; reflexivity.
    + apply NoDup_ids.
    + eexists; reflexivity.
  - intros self Hreach.
    destruct (reachable_inv self Hreach) as (Hmax & Hcnt & _).
    split; assumption.
Qed.

Lemma get_message_id_cycles_witness :
  reachable (mkBlockingDetector BLOCKED_INTER_1 (Some 7) 10000 2) /\
  0 <= last_message_id (mkBlockingDetector BLOCKED_INTER_1 (Some 7) 10000 2)
    <= 10000.
Proof.
  assert (Hreach : reachable (mkBlockingDetector BLOCKED_INTER_1 (Some 7) 10000 2)).
  { exists [GetMessageId; NotifyPoisonReceived (mkReport 7); GetMessageId].
    reflexivity. }
  split; [exact Hreach |].
  exact (proj2 (proj2 (proj2 get_message_id_cycles) _ Hreach)).
Defined.

(** ** Fresh detectors and frame properties *)

(** C7: a freshly constructed detector is in state [INIT], is not
    blocked and has its counter at 0; its first notification returns in
    state [BLOCKED_INTER_1] for every integer id, in particular for
    every id between 0 and [max_id_value]. *)
Theorem fresh_detector :
  state __init__ = INIT /\
  is_blocked __init__ = Returned false __init__ /\
  last_message_id __init__ = 0 /\
  get_message_id __init__ =
    Returned 0 (mkBlockingDetector INIT None 10000 1) /\
  forall message : Report,
  exists d,
    notify_poison_received message __init__ = Returned tt d /\
    state d = BLOCKED_INTER_1.
Proof.
  repeat match goal with |- _ /\ _ => split end; try reflexivity.
  intros message; rewrite notify_from_INIT by reflexivity.
  eexists; split; reflexivity.
Qed.

Lemma notify_frame (message : Report) (d : BlockingDetector) :
  last_message_id (self_after (notify_poison_received message d)) =
    last_message_id d /\
  max_id_value (self_after (notify_poison_received message d)) =
    max_id_value d.
Proof.
  destruct (State_eqb_spec (state d) INIT) as [Hs | Hs].
  - rewrite (notify_from_INIT message d Hs); split; reflexivity.
  - destruct (last_poison_message_id d) as [last |] eqn:Hl.
    + destruct (Z.eq_dec (dispatcher_report_id message) (last + 1)) as [Hi | Hi].
      * rewrite (notify_successor message d last Hs Hl Hi); split; reflexivity.
      * rewrite (notify_broken_run message d last Hs Hl Hi); split; reflexivity.
    + rewrite (notify_without_last message d Hs Hl); split; reflexivity.
Qed.

(** C8: [notify_poison_received] leaves [last_message_id] (and the
    bound) as they were, whether it returns or raises;
    [get_message_id] leaves [state], [last_poison_message_id] and the
    bound as they were; [is_blocked] leaves the detector as it was. *)
Theorem counter_and_poison_state_independent :
  forall self : BlockingDetector,
    (forall message : Report,
        last_message_id (self_after (notify_poison_received message self)) =
          last_message_id self /\
        max_id_value (self_after (notify_poison_received message self)) =
          max_id_value self) /\
    (returned (get_message_id self) = true /\
     state (self_after (get_message_id self)) = state self /\
     last_poison_message_id (self_after (get_message_id self)) =
       last_poison_message_id self /\
     max_id_value (self_after (get_message_id self)) = max_id_value self) /\
    (returned (is_blocked self) = true /\
     self_after (is_blocked self) = self).
Proof.
  intros self; split; [| split].
  - intros message; apply notify_frame.
  - rewrite get_message_id_eq; repeat split.
  - rewrite is_blocked_eq; split; reflexivity.
Qed.

(** C9: in a reachable detector [last_poison_message_id] is [None]
    exactly when the state is [INIT]; hence a notification on a
    reachable detector never evaluates [None + 1]: for every integer id
    it returns, and the detector it leaves is reachable again. *)
Theorem notify_total_on_reachable :
  forall self : BlockingDetector,
    reachable self ->
    (last_poison_message_id self = None <-> state self = INIT) /\
    (forall message : Report,
     exists self',
       notify_poison_received message self = Returned tt self' /\
       reachable self').
Proof.
  intros self Hreach.
  pose proof (reachable_inv self Hreach) as Hinv.
  split; [apply Hinv |].
  intros message.
  destruct (notify_returns message self Hinv) as (d' & Hrun & _).
  exists d'; split; [exact Hrun |].
  exact (reachable_step (NotifyPoisonReceived message) self d' Hreach Hrun).
Qed.

Lemma notify_total_on_reachable_witness :
  reachable (mkBlockingDetector BLOCKED_INTER_2 (Some 43) 10000 0) /\
  exists self',
    notify_poison_received (mkReport 44)
      (mkBlockingDetector BLOCKED_INTER_2 (Some 43) 10000 0) =
    Returned tt self'.
Proof.
  assert (Hreach : reachable (mkBlockingDetector BLOCKED_INTER_2 (Some 43) 10000 0)).
  { exists [NotifyPoisonReceived (mkReport 42);
            NotifyPoisonReceived (mkReport 43)].
    reflexivity. }
  split; [exact Hreach |].
  destruct (proj2 (notify_total_on_reachable _ Hreach) (mkReport 44))
    as (self' & Hrun & _).
  exists self'; exact Hrun.
Defined.

(** ** What notifications leave behind *)

Lemma perform_not_INIT (c : call) (d d' : BlockingDetector) :
  state d <> INIT -> perform c d = Returned tt d' -> state d' <> INIT.
Proof.
  intros Hs; destruct c as [message | |]; cbn [perform].
  - destruct (last_poison_message_id d) as [last |] eqn:Hl.
    + destruct (Z.eq_dec (dispatcher_report_id message) (last + 1)) as [Hi | Hi].
      * rewrite (notify_successor message d last Hs Hl Hi).
        intros H; injection H as <-; cbn [state]; destruct (state d); congruence.
      * rewrite (notify_broken_run message d last Hs Hl Hi).
        intros H; injection H as <-; cbn [state]; destruct (state d); congruence.
    + rewrite (notify_without_last message d Hs Hl); discriminate.
  - intros H; injection H as <-; exact Hs.
  - unfold bind at 1; rewrite get_message_id_eq.
    intros H; injection H as <-; exact Hs.
Qed.

Lemma perform_all_not_INIT (cs : list call) :
  forall d d',
    state d <> INIT -> perform_all cs d = Returned tt d' -> state d' <> INIT.
Proof.
  induction cs as [| c cs IH]; intros d d' Hs.
  - intros H; injection H as <-; exact Hs.
  - cbn [perform_all]; unfold bind.
    destruct (perform c d) as [[] d1 | e d1] eqn:Hc; [| discriminate].
    apply IH; exact (perform_not_INIT c d d1 Hs Hc).
Qed.

Lemma perform_stored_in_range (c : call) (d d' : BlockingDetector) :
  call_in_id_space d c ->
  stored_in_range d ->
  perform c d = Returned tt d' ->
  stored_in_range d' /\ max_id_value d' = max_id_value d.
Proof.
  intros Hc Hr; destruct c as [message | |]; cbn [perform].
  - intros Hrun.
    pose proof (notify_stores message d d' Hrun) as Hl.
    pose proof (proj2 (notify_frame message d)) as Hm.
    rewrite Hrun in Hm; cbn [self_after] in Hm.
    split; [| exact Hm].
    unfold stored_in_range; rewrite Hl, Hm; unfold stored_id.
    cbn [call_in_id_space] in Hc; unfold in_id_space in Hc.
    destruct (Z.eqb_spec (dispatcher_report_id message) (max_id_value d)); lia.
  - intros H; injection H as <-; split; [exact Hr | reflexivity].
  - unfold bind at 1; rewrite get_message_id_eq.
    intros H; injection H as <-; split; [exact Hr | reflexivity].
Qed.

Lemma perform_all_stored_in_range (cs : list call) :
  forall d d',
    Forall (call_in_id_space d) cs ->
    stored_in_range d ->
    perform_all cs d = Returned tt d' ->
    stored_in_range d' /\ max_id_value d' = max_id_value d.
Proof.
  induction cs as [| c cs IH]; intros d d' Hall Hr.
  - intros H; injection H as <-; split; [exact Hr | reflexivity].
  - cbn [perform_all]; unfold bind.
    destruct (perform c d) as [[] d1 | e d1] eqn:Hc; [| discriminate].
    intros Hrun.
    inversion Hall as [| c0 cs0 Hc0 Hcs0]; subst.
    destruct (perform_stored_in_range c d d1 Hc0 Hr Hc) as (Hr1 & Hm1).
    destruct (IH d1 d') as (Hr' & Hm'); try assumption.
    + revert Hcs0; apply Forall_impl; intros [m | |]; cbn; trivial.
      unfold in_id_space; rewrite Hm1; trivial.
    + split; [exact Hr' | congruence].
Qed.

(** C10: every sequence of calls on a fresh detector returns; if it
    contains a notification, the detector it leaves is not in state
    [INIT]; and if moreover every notified id lies between 0 and
    [max_id_value], [last_poison_message_id] holds [-1] or an integer
    between 0 and [max_id_value - 1], never [max_id_value] itself. *)
Theorem after_notification_never_INIT :
  forall (cs1 cs2 : list call) (message : Report),
  exists d,
    perform_all (cs1 ++ NotifyPoisonReceived message :: cs2) __init__ =
      Returned tt d /\
    state d <> INIT /\
    (Forall (call_in_id_space __init__)
       (cs1 ++ NotifyPoisonReceived message :: cs2) ->
     exists l,
       last_poison_message_id d = Some l /\
       (l = -1 \/ 0 <= l <= max_id_value d - 1) /\
       l <> max_id_value d).
Proof.
  intros cs1 cs2 message.
  set (cs := cs1 ++ NotifyPoisonReceived message :: cs2).
  destruct (perform_all_returns cs __init__ detector_inv_init)
    as (d & Hrun & Hinv).
  exists d; split; [exact Hrun |].
  assert (Hs : state d <> INIT).
  { subst cs; rewrite perform_all_app in Hrun; unfold bind in Hrun.
    destruct (perform_all_returns cs1 __init__ detector_inv_init)
      as (d1 & Hrun1 & Hinv1).
    rewrite Hrun1 in Hrun; cbn [perform_all perform] in Hrun.
    unfold bind in Hrun.
    destruct (notify_returns message d1 Hinv1) as (d2 & Hrun2 & Hs2 & _).
    rewrite Hrun2 in Hrun.
    exact (perform_all_not_INIT cs2 d2 d Hs2 Hrun). }
  split; [exact Hs |].
  intros Hall.
  destruct (perform_all_stored_in_range cs __init__ d Hall I Hrun)
    as (Hr & Hm).
  unfold stored_in_range in Hr.
  destruct (last_poison_message_id d) as [l |] eqn:Hl.
  - exists l; split; [reflexivity |]; split; [exact Hr |].
    destruct Hinv as (Hmax & _); lia.
  - exfalso; apply Hs, Hinv; exact Hl.
Qed.

Lemma after_notification_never_INIT_witness :
  Forall (call_in_id_space __init__)
    ([GetMessageId; NotifyPoisonReceived (mkReport 9999)] ++
     NotifyPoisonReceived (mkReport 10000) :: [IsBlocked]) /\
  exists d l,
    perform_all
      ([GetMessageId; NotifyPoisonReceived (mkReport 9999)] ++
       NotifyPoisonReceived (mkReport 10000) :: [IsBlocked]) __init__ =
    Returned tt d /\
    state d <> INIT /\
    last_poison_message_id d = Some l /\
    l <> max_id_value d.
Proof.
  assert (Hall : Forall (call_in_id_space __init__)
                   ([GetMessageId; NotifyPoisonReceived (mkReport 9999)] ++
                    NotifyPoisonReceived (mkReport 10000) :: [IsBlocked])).
  { repeat constructor; cbn; lia. }
  split; [exact Hall |].
  destruct (after_notification_never_INIT
              [GetMessageId; NotifyPoisonReceived (mkReport 9999)]
              [IsBlocked] (mkReport 10000))
    as (d & Hrun & Hs & Hrange).
  destruct (Hrange Hall) as (l & Hl & _ & Hne).
  exists d, l; repeat split; assumption.
Defined.

(** ** Further properties of the detector *)

(** X1: a notification raises exactly when the detector is outside
    [INIT] with [None] in [last_poison_message_id]; the exception is
    then [TypeError] and no attribute has been assigned: the detector
    is left as it was. *)
Theorem notify_raises_only_without_last :
  forall (self : BlockingDetector) (message : Report),
    (returned (notify_poison_received message self) = false <->
     state self <> INIT /\ last_poison_message_id self = None) /\
    (returned (notify_poison_received message self) = false ->
     notify_poison_received message self = Raised TypeError self).
Proof.
  intros self message.
  destruct (State_eqb_spec (state self) INIT) as [Hs | Hs].
  - rewrite (notify_from_INIT message self Hs); cbn [returned].
    split; [split |]; try discriminate.
    intros [Hn _]; contradiction.
  - destruct (last_poison_message_id self) as [last |] eqn:Hl.
    + destruct (Z.eq_dec (dispatcher_report_id message) (last + 1)) as [Hi | Hi].
      * rewrite (notify_successor message self last Hs Hl Hi); cbn [returned].
        split; [split |]; try discriminate.
        intros [_ Hn]; discriminate.
      * rewrite (notify_broken_run message self last Hs Hl Hi); cbn [returned].
        split; [split |]; try discriminate.
        intros [_ Hn]; discriminate.
    + rewrite (notify_without_last message self Hs Hl); cbn [returned].
      split; [split |]; auto.
Qed.

(** X2: one call moves the state by at most one step of the
    enumeration: its value never grows by more than one, it shrinks
    only in the reset from [BLOCKED_INTER_2] to [BLOCKED_INTER_1], and
    once it is [BLOCKED] or [FINAL] it never shrinks. *)
Theorem state_moves_one_step :
  forall (self : BlockingDetector) (c : call),
    State_value (state (self_after (perform c self))) <=
      State_value (state self) + 1 /\
    (State_value (state (self_after (perform c self))) <
       State_value (state self) ->
     state self = BLOCKED_INTER_2 /\
     state (self_after (perform c self)) = BLOCKED_INTER_1) /\
    (State_value BLOCKED <= State_value (state self) ->
     State_value (state self) <=
       State_value (state (self_after (perform c self)))).
Proof.
  intros self [message | |]; cbn [perform].
  - destruct (State_eqb_spec (state self) INIT) as [Hs | Hs].
    + rewrite (notify_from_INIT message self Hs); cbn [self_after state].
      rewrite Hs; cbn; repeat split; lia.
    + destruct (last_poison_message_id self) as [last |] eqn:Hl.
      * destruct (Z.eq_dec (dispatcher_report_id message) (last + 1))
          as [Hi | Hi].
        -- rewrite (notify_successor message self last Hs Hl Hi).
           cbn [self_after state].
           destruct (state self); cbn; repeat split; try lia; congruence.
        -- rewrite (notify_broken_run message self last Hs Hl Hi).
           cbn [self_after state].
           destruct (state self); cbn; repeat split; try lia; congruence.
      * rewrite (notify_without_last message self Hs Hl); cbn [self_after].
        repeat split; lia.
  - cbn; repeat split; lia.
  - unfold bind; rewrite get_message_id_eq.
    unfold ret; cbn [self_after state].
    repeat split; lia.
Qed.

(** X3: on a reachable detector a notification of the id that was
    notified just before is never taken for its successor: it resets
    [BLOCKED_INTER_1] and [BLOCKED_INTER_2] to [BLOCKED_INTER_1] and
    leaves [BLOCKED] and [FINAL] as they are. *)
Theorem repeated_id_never_advances :
  forall (self : BlockingDetector) (message : Report),
    reachable self ->
    exists d1 d2,
      notify_poison_received message self = Returned tt d1 /\
      notify_poison_received message d1 = Returned tt d2 /\
      (state d1 = BLOCKED_INTER_1 \/ state d1 = BLOCKED_INTER_2 ->
       state d2 = BLOCKED_INTER_1) /\
      (state d1 = BLOCKED \/ state d1 = FINAL -> state d2 = state d1).
Proof.
  intros self message Hreach.
  pose proof (reachable_inv self Hreach) as Hinv.
  destruct (notify_returns message self Hinv)
    as (d1 & Hrun1 & Hs1 & Hl1 & Hm1 & _).
  assert (Hmax : max_id_value self = 10000) by apply Hinv.
  assert (Hne : dispatcher_report_id message <> stored_id self message + 1).
  { unfold stored_id; rewrite Hmax.
    destruct (Z.eqb_spec (dispatcher_report_id message) 10000); lia. }
  exists d1; eexists; split; [exact Hrun1 |].
  split; [exact (notify_broken_run message d1 _ Hs1 Hl1 Hne) |].
  cbn [state]; split; intros [-> | ->]; reflexivity.
Qed.

Lemma repeated_id_never_advances_witness :
  reachable (mkBlockingDetector BLOCKED_INTER_1 (Some 5) 10000 0) /\
  exists d1 d2,
    notify_poison_received (mkReport 6)
      (mkBlockingDetector BLOCKED_INTER_1 (Some 5) 10000 0) = Returned tt d1 /\
    notify_poison_received (mkReport 6) d1 = Returned tt d2 /\
    (state d1 = BLOCKED_INTER_1 \/ state d1 = BLOCKED_INTER_2 ->
     state d2 = BLOCKED_INTER_1).
Proof.
  assert (Hreach : reachable (mkBlockingDetector BLOCKED_INTER_1 (Some 5) 10000 0)).
  { exists [NotifyPoisonReceived (mkReport 5)]; reflexivity. }
  split; [exact Hreach |].
  destruct (repeated_id_never_advances _ (mkReport 6) Hreach)
    as (d1 & d2 & H1 & H2 & Hreset & _).
  exists d1, d2; repeat split; assumption.
Defined.

(** ** The counter in closed form *)

Lemma next_id_mod (max i : Z) :
  0 <= i <= max -> next_id max i = (i + 1) mod (max + 1).
Proof.
  intros Hi; unfold next_id.
  destruct (Z.eqb_spec i max) as [-> | Hne].
  - rewrite Z.mod_same by lia; reflexivity.
  - rewrite Z.mod_small by lia; reflexivity.
Qed.

Lemma get_message_ids_mod (n : nat) :
  forall d,
    0 <= last_message_id d <= max_id_value d ->
    get_message_ids n d =
    Returned
      (map (fun i => (last_message_id d + Z.of_nat i) mod (max_id_value d + 1))
         (seq 0 n))
      (mkBlockingDetector (state d) (last_poison_message_id d)
         (max_id_value d)
         ((last_message_id d + Z.of_nat n) mod (max_id_value d + 1))).
Proof.
  induction n as [| n IH]; intros d Hd.
  - cbn [get_message_ids seq map]; unfold ret.
    rewrite Z.add_0_r, Z.mod_small by lia.
    destruct d; reflexivity.
  - cbn [get_message_ids]; unfold bind at 1; rewrite get_message_id_eq.
    fold (next_id (max_id_value d) (last_message_id d)).
    pose proof (next_id_mod (max_id_value d) (last_message_id d) Hd) as Hnext.
    assert (Hrange : 0 <= next_id (max_id_value d) (last_message_id d)
                     <= max_id_value d).
    { rewrite Hnext.
      pose proof (Z.mod_pos_bound (last_message_id d + 1) (max_id_value d + 1)).
      lia. }
    unfold bind; rewrite IH by exact Hrange.
    unfold ret; cbn [state last_poison_message_id max_id_value last_message_id].
    rewrite Hnext.
    f_equal.
    + cbn [seq map]; change (Z.of_nat 0) with 0; rewrite Z.add_0_r.
      rewrite (Z.mod_small (last_message_id d)) by lia; f_equal.
      rewrite <- seq_shift, map_map.
      apply map_ext; intros i.
      rewrite Z.add_mod_idemp_l by lia.
      f_equal; lia.
    + f_equal.
      rewrite Z.add_mod_idemp_l by lia.
      f_equal; lia.
Qed.

(** X4: with the counter between 0 and the bound, [n] calls of
    [get_message_id] return the ids [(c + i) mod (max_id_value + 1)]
    for [i = 0, ..., n - 1], where [c] is the counter before the
    calls, and leave [(c + n) mod (max_id_value + 1)] in the counter;
    no other attribute changes. *)
Theorem message_ids_count_modulo :
  forall (n : nat) (self : BlockingDetector),
    0 <= last_message_id self <= max_id_value self ->
    get_message_ids n self =
    Returned
      (map (fun i =>
              (last_message_id self + Z.of_nat i) mod (max_id_value self + 1))
         (seq 0 n))
      (mkBlockingDetector (state self) (last_poison_message_id self)
         (max_id_value self)
         ((last_message_id self + Z.of_nat n) mod (max_id_value self + 1))).
Proof. exact get_message_ids_mod. Qed.

Lemma message_ids_count_modulo_witness :
  get_message_ids 4 (mkBlockingDetector BLOCKED (Some 3) 10000 9999) =
  Returned [9999; 10000; 0; 1] (mkBlockingDetector BLOCKED (Some 3) 10000 2).
Proof.
  exact (message_ids_count_modulo 4
           (mkBlockingDetector BLOCKED (Some 3) 10000 9999)
           ltac:(simpl; lia)).
Defined.

Lemma mod_window_injective (m k i j : Z) :
  0 < m -> 0 <= i < m -> 0 <= j < m ->
  (k + i) mod m = (k + j) mod m -> i = j.
Proof.
  intros Hm Hi Hj Heq.
  pose proof (Z.div_mod (k + i) m ltac:(lia)) as Hdi.
  pose proof (Z.div_mod (k + j) m ltac:(lia)) as Hdj.
  rewrite Heq in Hdi.
  assert (Hq : m * ((k + i) / m - (k + j) / m) = i - j) by lia.
  assert (Hz : (k + i) / m - (k + j) / m = 0) by nia.
  rewrite Hz in Hq; lia.
Qed.

(** X5: with the counter between 0 and the bound, at most
    [max_id_value + 1] successive calls of [get_message_id] never
    return the same id twice; exactly [max_id_value + 1] calls return
    every id between 0 and the bound and put the detector back as it
    was. *)
Theorem message_ids_unique_within_cycle :
  forall self : BlockingDetector,
    0 <= last_message_id self <= max_id_value self ->
    (forall n : nat,
        Z.of_nat n <= max_id_value self + 1 ->
        exists ids d,
          get_message_ids n self = Returned ids d /\ NoDup ids) /\
    (exists ids,
        get_message_ids (Z.to_nat (max_id_value self + 1)) self =
          Returned ids self /\
        NoDup ids /\
        forall x : Z, In x ids <-> 0 <= x <= max_id_value self).
Proof.
  intros self Hc.
  assert (Hnodup : forall n : nat,
             Z.of_nat n <= max_id_value self + 1 ->
             NoDup (map (fun i => (last_message_id self + Z.of_nat i)
                                    mod (max_id_value self + 1)) (seq 0 n))).
  { intros n Hn.
    apply NoDup_map_NoDup_ForallPairs; [| apply seq_NoDup].
    intros i j Hi Hj Heq.
    apply in_seq in Hi; apply in_seq in Hj.
    apply mod_window_injective in Heq; lia. }
  split.
  - intros n Hn; do 2 eexists.
    split; [apply get_message_ids_mod; exact Hc | exact (Hnodup n Hn)].
  - eexists; split; [| split].
    + rewrite get_message_ids_mod by exact Hc.
      f_equal.
      rewrite Z2Nat.id by lia.
      replace (last_message_id self + (max_id_value self + 1))
        with (last_message_id self + 1 * (max_id_value self + 1)) by lia.
      rewrite Z.mod_add, Z.mod_small by lia.
      destruct self; reflexivity.
    + apply Hnodup; lia.
    + intros x; rewrite in_map_iff; split.
      * intros (i & <- & _).
        pose proof (Z.mod_pos_bound (last_message_id self + Z.of_nat i)
                      (max_id_value self + 1)); lia.
      * intros Hx.
        exists (Z.to_nat ((x - last_message_id self) mod (max_id_value self + 1))).
        pose proof (Z.mod_pos_bound (x - last_message_id self)
                      (max_id_value self + 1) ltac:(lia)) as Hb.
        split; [| apply in_seq; lia].
        rewrite Z2Nat.id by lia.
        rewrite Z.add_mod_idemp_r by lia.
        replace (last_message_id self + (x - last_message_id self)) with x by lia.
        apply Z.mod_small; lia.
Qed.

Lemma message_ids_unique_within_cycle_witness :
  exists ids d,
    get_message_ids 3 (mkBlockingDetector INIT None 10000 9999) =
      Returned ids d /\ NoDup ids.
Proof.
  exact (proj1 (message_ids_unique_within_cycle
                  (mkBlockingDetector INIT None 10000 9999)
                  ltac:(simpl; lia)) 3%nat ltac:(simpl; lia)).
Defined.

(** ** Handing out ids and getting them back as poison *)

Lemma stored_id_next (d : BlockingDetector) (message : Report) :
  stored_id d message + 1 =
  next_id (max_id_value d) (dispatcher_report_id message).
Proof.
  unfold stored_id, next_id.
  destruct (Z.eqb_spec (dispatcher_report_id message) (max_id_value d));
    reflexivity.
Qed.

Lemma get_message_ids_chained (n : nat) :
  forall d,
  exists ids d1,
    get_message_ids n d = Returned ids d1 /\
    chained (max_id_value d) (last_message_id d) ids /\
    length ids = n /\
    same_poison_view d1 d.
Proof.
  induction n as [| n IH]; intros d.
  - exists [], d; repeat split.
  - cbn [get_message_ids]; unfold bind at 1; rewrite get_message_id_eq.
    fold (next_id (max_id_value d) (last_message_id d)).
    match goal with
    | |- context [ bind _ _ ?d1 ] =>
        destruct (IH d1) as (ids & d2 & Hrun & Hch & Hlen & Hview)
    end.
    unfold bind; rewrite Hrun; unfold ret.
    exists (last_message_id d :: ids), d2.
    split; [reflexivity |].
    split; [split; [reflexivity | exact Hch] |].
    split; [cbn [length]; congruence | exact Hview].
Qed.

Lemma notify_all_chained (ids : list Z) :
  forall d last,
    state d <> INIT ->
    last_poison_message_id d = Some last ->
    chained (max_id_value d) (last + 1) ids ->
    exists d',
      notify_all ids d = Returned tt d' /\
      State_value (state d') =
      Z.min 5 (State_value (state d) + Z.of_nat (length ids)).
Proof.
  induction ids as [| i ids IH]; intros d last Hs Hl Hch.
  - exists d; split; [reflexivity |].
    cbn [length]; destruct (state d); cbn; lia.
  - destruct Hch as [Hi Hch].
    cbn [notify_all]; unfold bind.
    rewrite (notify_successor (mkReport i) d last Hs Hl Hi).
    match goal with
    | |- context [ notify_all ids ?d1 ] =>
        destruct (IH d1 (stored_id d (mkReport i))) as (d' & Hrun & Hval)
    end.
    + cbn [state]; destruct (state d); congruence.
    + reflexivity.
    + cbn [max_id_value]; rewrite stored_id_next; exact Hch.
    + exists d'; split; [exact Hrun |].
      rewrite Hval; cbn [state length].
      destruct (state d); try congruence; cbn [State_value]; lia.
Qed.

(** X6: when the first [n] ids a detector in state [INIT] hands out
    are all notified as poison, in the order they were handed out, the
    value of the state is [min 5 (1 + n)]: [BLOCKED] exactly for
    [n = 3] and [FINAL] from [n = 4] on.  This holds wherever the
    counter stands, also when the ids wrap from the bound to 0. *)
Theorem handed_out_ids_poisoned_in_order :
  forall (self : BlockingDetector) (n : nat),
    state self = INIT ->
    exists ids d1 d2,
      get_message_ids n self = Returned ids d1 /\
      notify_all ids d1 = Returned tt d2 /\
      State_value (state d2) = Z.min 5 (1 + Z.of_nat n) /\
      (state d2 = BLOCKED <-> n = 3%nat) /\
      (state d2 = FINAL <-> (4 <= n)%nat).
Proof.
  intros self n Hs.
  destruct (get_message_ids_chained n self)
    as (ids & d1 & Hrun & Hch & Hlen & Hs1 & Hl1 & Hm1).
  assert (Hval : exists d2,
             notify_all ids d1 = Returned tt d2 /\
             State_value (state d2) = Z.min 5 (1 + Z.of_nat n)).
  { destruct ids as [| i ids].
    - exists d1; split; [reflexivity |].
      cbn [length] in Hlen; subst n; rewrite Hs1, Hs; reflexivity.
    - destruct Hch as [_ Hch].
      cbn [notify_all]; unfold bind.
      rewrite notify_from_INIT by congruence.
      match goal with
      | |- context [ notify_all ids ?d ] =>
          destruct (notify_all_chained ids d (stored_id d1 (mkReport i)))
            as (d2 & Hrun2 & Hval)
      end.
      + discriminate.
      + reflexivity.
      + cbn [max_id_value]; rewrite stored_id_next, Hm1; exact Hch.
      + exists d2; split; [exact Hrun2 |].
        rewrite Hval; cbn [state State_value].
        cbn [length] in Hlen; lia. }
  destruct Hval as (d2 & Hrun2 & Hval).
  exists ids, d1, d2.
  split; [exact Hrun |]; split; [exact Hrun2 |]; split; [exact Hval |].
  split; split; intros H.
  - rewrite H in Hval; cbn [State_value] in Hval; lia.
  - apply State_value_inj; rewrite Hval; cbn [State_value]; lia.
  - rewrite H in Hval; cbn [State_value] in Hval; lia.
  - apply State_value_inj; rewrite Hval; cbn [State_value]; lia.
Qed.

Lemma handed_out_ids_poisoned_in_order_witness :
  exists ids d1 d2,
    get_message_ids 3 (mkBlockingDetector INIT None 10000 9999) =
      Returned ids d1 /\
    notify_all ids d1 = Returned tt d2 /\
    state d2 = BLOCKED.
Proof.
  destruct (handed_out_ids_poisoned_in_order
              (mkBlockingDetector INIT None 10000 9999) 3 eq_refl)
    as (ids & d1 & d2 & H1 & H2 & _ & Hb & _).
  exists ids, d1, d2; split; [exact H1 |]; split; [exact H2 |].
  apply Hb; reflexivity.
Defined.

(** ** Traces seen from the poison branch and from the counter *)

Lemma notify_counter_irrelevant
  (message : Report) (s : State) (l : option Z) (m c c' : Z) :
  notify_poison_received message (mkBlockingDetector s l m c') =
  match notify_poison_received message (mkBlockingDetector s l m c) with
  | Returned v d =>
      Returned v (mkBlockingDetector (state d) (last_poison_message_id d)
                    (max_id_value d) c')
  | Raised e d =>
      Raised e (mkBlockingDetector (state d) (last_poison_message_id d)
                  (max_id_value d) c')
  end.
Proof.
  destruct s, l as [last |]; unfold_methods; split_tests; reflexivity.
Qed.

Lemma notify_same_poison_view
  (message : Report) (d e d' : BlockingDetector) :
  same_poison_view d e ->
  notify_poison_received message d = Returned tt d' ->
  exists e',
    notify_poison_received message e = Returned tt e' /\
    same_poison_view d' e' /\
    last_message_id e' = last_message_id e.
Proof.
  destruct d as [s l m c], e as [s' l' m' c'].
  unfold same_poison_view; cbn [state last_poison_message_id max_id_value].
  intros (<- & <- & <-) Hrun.
  rewrite (notify_counter_irrelevant message s l m c c'), Hrun.
  eexists; split; [reflexivity |].
  pose proof (notify_frame message (mkBlockingDetector s l m c)) as [Hc Hm].
  rewrite Hrun in Hc, Hm; cbn [self_after] in Hc, Hm.
  repeat split.
Qed.

Lemma perform_all_views (cs : list call) :
  forall d en ep,
    detector_inv d ->
    same_poison_view d en ->
    same_counter_view d ep ->
    exists d' en' ep',
      perform_all cs d = Returned tt d' /\
      perform_all (filter is_notification cs) en = Returned tt en' /\
      perform_all (filter is_probe cs) ep = Returned tt ep' /\
      same_poison_view d' en' /\
      same_counter_view d' ep' /\
      last_message_id en' = last_message_id en /\
      same_poison_view ep' ep.
Proof.
  induction cs as [| c cs IH]; intros d en ep Hinv Hpv Hcv.
  - exists d, en, ep; repeat split; solve [apply Hpv | apply Hcv].
  - destruct (perform_returns c d Hinv) as (d1 & Hrun1 & Hinv1).
    cbn [perform_all filter]; unfold bind at 1; rewrite Hrun1.
    destruct c as [message | |]; cbn [is_notification is_probe].
    + cbn [perform] in Hrun1.
      destruct (notify_same_poison_view message d en d1 Hpv Hrun1)
        as (en1 & Hrun_en & Hpv1 & Hc_en).
      pose proof (notify_frame message d) as [Hc Hm].
      rewrite Hrun1 in Hc, Hm; cbn [self_after] in Hc, Hm.
      assert (Hcv1 : same_counter_view d1 ep).
      { destruct Hcv as [Hcc Hcm]; split; congruence. }
      destruct (IH d1 en1 ep Hinv1 Hpv1 Hcv1)
        as (d' & en' & ep' & H1 & H2 & H3 & H4 & H5 & H6 & H7).
      exists d', en', ep'.
      cbn [perform_all perform]; unfold bind; rewrite Hrun_en.
      repeat split; try assumption; try apply H4; try apply H5; try apply H7.
      congruence.
    + cbn in Hrun1; injection Hrun1 as <-.
      exact (IH d en ep Hinv Hpv Hcv).
    + cbn [perform] in Hrun1; unfold bind, ret in Hrun1.
      rewrite get_message_id_eq in Hrun1; injection Hrun1 as <-.
      destruct Hcv as [Hcc Hcm], Hpv as (Hps & Hpl & Hpm).
      match goal with
      | |- context [ perform_all cs ?d1 ] =>
          destruct (IH d1 en
                      (mkBlockingDetector (state ep) (last_poison_message_id ep)
                         (max_id_value ep)
                         (if last_message_id ep =? max_id_value ep then 0
                          else last_message_id ep + 1)) Hinv1)
            as (d' & en' & ep' & H1 & H2 & H3 & H4 & H5 & H6 & H7)
      end.
      * repeat split; assumption.
      * split; cbn [last_message_id max_id_value]; [| exact Hcm].
        rewrite Hcc, Hcm; reflexivity.
      * exists d', en', ep'.
        cbn [perform_all perform]; unfold bind, ret.
        rewrite get_message_id_eq.
        repeat split; try assumption; try apply H4; try apply H5; apply H7.
Qed.

(** X7: on a reachable detector a sequence of calls returns, and so do
    its notifications alone and its [get_message_id] calls alone; the
    state, the stored poison id and the bound are those the
    notifications alone leave, the counter is the one the
    [get_message_id] calls alone leave.  The notifications alone leave
    the counter, and the [get_message_id] calls alone leave the state
    and the stored poison id, as they were. *)
Theorem trace_splits_into_poison_and_counter :
  forall (cs : list call) (self : BlockingDetector),
    reachable self ->
    exists d dn dp,
      perform_all cs self = Returned tt d /\
      perform_all (filter is_notification cs) self = Returned tt dn /\
      perform_all (filter is_probe cs) self = Returned tt dp /\
      same_poison_view d dn /\
      same_counter_view d dp /\
      last_message_id dn = last_message_id self /\
      same_poison_view dp self.
Proof.
  intros cs self Hreach.
  apply perform_all_views.
  - exact (reachable_inv self Hreach).
  - repeat split.
  - repeat split.
Qed.

Lemma trace_splits_into_poison_and_counter_witness :
  exists d dn dp,
    perform_all
      [GetMessageId; NotifyPoisonReceived (mkReport 7); IsBlocked;
       GetMessageId; NotifyPoisonReceived (mkReport 8)] __init__ =
      Returned tt d /\
    perform_all
      [NotifyPoisonReceived (mkReport 7); NotifyPoisonReceived (mkReport 8)]
      __init__ = Returned tt dn /\
    perform_all [GetMessageId; GetMessageId] __init__ = Returned tt dp /\
    state d = state dn /\
    last_message_id d = last_message_id dp.
Proof.
  destruct (trace_splits_into_poison_and_counter
              [GetMessageId; NotifyPoisonReceived (mkReport 7); IsBlocked;
               GetMessageId; NotifyPoisonReceived (mkReport 8)]
              __init__ reachable_init)
    as (d & dn & dp & H1 & H2 & H3 & Hp & Hc & _).
  exists d, dn, dp; repeat split; try assumption; [apply Hp | apply Hc].
Defined.

(** ** When a detector is blocked *)

Lemma poison_ids_app (cs1 cs2 : list call) :
  poison_ids (cs1 ++ cs2) = poison_ids cs1 ++ poison_ids cs2.
Proof.
  induction cs1 as [| [message | |] cs1 IH]; cbn [app poison_ids];
    rewrite ?IH; reflexivity.
Qed.

Lemma run3_rev_cons (max x j i : Z) (t : list Z) :
  run3_rev max (x :: j :: i :: t) =
  ((x =? next_id max j) && (j =? next_id max i)) || run3_rev max (j :: i :: t).
Proof. reflexivity. Qed.

Lemma run3_rev_spec (max : Z) (hist : list Z) :
  run3_rev max hist = true <->
  exists a i b,
    hist = a ++ next_id max (next_id max i) :: next_id max i :: i :: b.
Proof.
  induction hist as [| k t IH].
  - split; [discriminate |].
    intros (a & i & b & H); destruct a; discriminate.
  - destruct t as [| j [| i t']].
    + split; [discriminate |].
      intros (a & i & b & H); destruct a as [| ? [| ? ?]]; discriminate.
    + split; [discriminate |].
      intros (a & i & b & H); destruct a as [| ? [| ? [| ? ?]]]; discriminate.
    + rewrite run3_rev_cons, orb_true_iff, andb_true_iff, IH.
      split.
      * intros [[Hk Hj] | (a & i0 & b & H)].
        -- apply Z.eqb_eq in Hk, Hj; subst k j.
           exists [], i, t'; reflexivity.
        -- exists (k :: a), i0, b; cbn [app]; rewrite H; reflexivity.
      * intros (a & i0 & b & H).
        destruct a as [| k0 a]; cbn [app] in H.
        -- injection H as -> -> -> ->.
           left; split; apply Z.eqb_refl.
        -- injection H as -> H.
           right; exists a, i0, b; exact H.
Qed.

Lemma has_run3_rev (max : Z) (ids : list Z) :
  has_run3 max ids <-> run3_rev max (rev ids) = true.
Proof.
  rewrite run3_rev_spec; unfold has_run3; split.
  - intros (p & i & q & ->).
    exists (rev q), i, (rev p).
    rewrite rev_app_distr; cbn [rev].
    repeat (rewrite <- app_assoc; cbn [app]); reflexivity.
  - intros (a & i & b & H).
    exists (rev b), i, (rev a).
    rewrite <- (rev_involutive ids), H, rev_app_distr; cbn [rev].
    repeat (rewrite <- app_assoc; cbn [app]); reflexivity.
Qed.

Lemma notify_history_inv
  (message : Report) (hist : list Z) (d d' : BlockingDetector) :
  history_inv (max_id_value d) hist d ->
  notify_poison_received message d = Returned tt d' ->
  history_inv (max_id_value d) (dispatcher_report_id message :: hist) d'.
Proof.
  set (x := dispatcher_report_id message); set (max := max_id_value d).
  intros Hinv Hrun.
  pose proof (notify_stores message d d' Hrun) as Hl'.
  unfold stored_id in Hl'; fold x max in Hl'.
  destruct hist as [| j t].
  - cbn [history_inv] in Hinv.
    rewrite (notify_from_INIT message d Hinv) in Hrun; injection Hrun as <-.
    split; [exact Hl' | reflexivity].
  - destruct Hinv as [Hl Hst].
    assert (Hnext : (if j =? max then -1 else j) + 1 = next_id max j).
    { unfold next_id; destruct (Z.eqb_spec j max); reflexivity. }
    assert (Hs : state d <> INIT).
    { destruct (run3_rev max (j :: t)); [destruct Hst; congruence |].
      destruct t as [| i t']; [congruence |].
      destruct (j =? next_id max i); congruence. }
    split; [exact Hl' |].
    destruct (Z.eqb_spec x (next_id max j)) as [Hx | Hx].
    + rewrite (notify_successor message d _ Hs Hl) in Hrun
        by (fold x; rewrite Hnext; exact Hx).
      injection Hrun as <-; cbn [state].
      destruct t as [| i t'].
      * cbn [run3_rev] in Hst |- *.
        destruct (Z.eqb_spec x (next_id max j)); [| contradiction].
        rewrite Hst; reflexivity.
      * rewrite run3_rev_cons.
        destruct (Z.eqb_spec x (next_id max j)); [| contradiction].
        cbn [andb].
        destruct (run3_rev max (j :: i :: t')).
        -- rewrite orb_true_r; destruct Hst as [-> | ->]; auto.
        -- rewrite orb_false_r.
           destruct (j =? next_id max i); rewrite Hst; auto.
    + rewrite (notify_broken_run message d _ Hs Hl) in Hrun
        by (fold x; rewrite Hnext; exact Hx).
      injection Hrun as <-; cbn [state].
      destruct t as [| i t'].
      * cbn [run3_rev] in Hst |- *.
        destruct (Z.eqb_spec x (next_id max j)); [contradiction |].
        rewrite Hst; reflexivity.
      * rewrite run3_rev_cons.
        destruct (Z.eqb_spec x (next_id max j)); [contradiction |].
        cbn [andb orb].
        destruct (run3_rev max (j :: i :: t')).
        -- destruct Hst as [-> | ->]; auto.
        -- destruct (j =? next_id max i); rewrite Hst; reflexivity.
Qed.

Lemma perform_all_history_inv (cs : list call) :
  exists d,
    perform_all cs __init__ = Returned tt d /\
    max_id_value d = 10000 /\
    history_inv 10000 (rev (poison_ids cs)) d.
Proof.
  induction cs as [| c cs IH] using rev_ind.
  - exists __init__; repeat split.
  - destruct IH as (d & Hrun & Hmax & Hinv).
    assert (Hd : detector_inv d).
    { apply reachable_inv; exists cs; exact Hrun. }
    destruct (perform_returns c d Hd) as (d' & Hrun' & Hd').
    exists d'; split; [| split; [apply Hd' |]].
    + rewrite perform_all_app; unfold bind; rewrite Hrun.
      cbn [perform_all]; unfold bind; rewrite Hrun'; reflexivity.
    + rewrite poison_ids_app, rev_app_distr.
      destruct c as [message | |]; cbn [poison_ids rev app].
      * rewrite <- Hmax in Hinv |- *.
        exact (notify_history_inv message _ d d' Hinv Hrun').
      * cbn in Hrun'; injection Hrun' as <-; exact Hinv.
      * cbn [perform] in Hrun'; unfold bind, ret in Hrun'.
        rewrite get_message_id_eq in Hrun'; injection Hrun' as <-.
        destruct (rev (poison_ids cs)); exact Hinv.
Qed.

(** X8: after any sequence of calls on a fresh detector the state is
    [BLOCKED] or [FINAL] exactly when the notified ids, in the order
    of the calls, hold three ids side by side of which the second is
    the successor of the first and the third the successor of the
    second, the successor of 10000 being 0. *)
Theorem blocked_iff_run_of_three :
  forall cs : list call,
  exists d,
    perform_all cs __init__ = Returned tt d /\
    (state d = BLOCKED \/ state d = FINAL <->
     has_run3 10000 (poison_ids cs)).
Proof.
  intros cs.
  destruct (perform_all_history_inv cs) as (d & Hrun & _ & Hinv).
  exists d; split; [exact Hrun |].
  rewrite has_run3_rev.
  destruct (rev (poison_ids cs)) as [| x t]; cbn [history_inv] in Hinv.
  - cbn [run3_rev]; split; [| discriminate].
    rewrite Hinv; intros [H | H]; discriminate.
  - destruct Hinv as [_ Hst].
    destruct (run3_rev 10000 (x :: t)).
    + split; auto.
    + split; [| discriminate].
      destruct t as [| j t'];
        [| destruct (x =? next_id 10000 j)];
        rewrite Hst; intros [H | H]; discriminate.
Qed.

(** X9: [BLOCKED] does not last: on a reachable detector in state
    [BLOCKED], any id followed by its successor (0 after 10000) leaves
    the state [FINAL], whether or not the first of the two continues
    the run that blocked the detector; [is_blocked] is false from then
    on. *)
Theorem blocked_then_successive_pair_is_final :
  forall (self : BlockingDetector) (x : Z),
    reachable self ->
    state self = BLOCKED ->
    exists d1 d2,
      notify_poison_received (mkReport x) self = Returned tt d1 /\
      notify_poison_received (mkReport (next_id 10000 x)) d1 =
        Returned tt d2 /\
      state d2 = FINAL /\
      is_blocked d2 = Returned false d2.
Proof.
  intros self x Hreach Hb.
  pose proof (reachable_inv self Hreach) as Hinv.
  destruct (notify_returns (mkReport x) self Hinv)
    as (d1 & Hrun1 & Hs1 & Hl1 & Hm1 & _).
  assert (Hmax : max_id_value self = 10000) by apply Hinv.
  assert (Hd1 : state d1 = BLOCKED \/ state d1 = FINAL).
  { assert (Hn : state self <> INIT) by congruence.
    destruct (last_poison_message_id self) as [last |] eqn:Hl.
    - destruct (Z.eq_dec x (last + 1)) as [Hi | Hi].
      + rewrite (notify_successor (mkReport x) self last Hn Hl Hi) in Hrun1.
        injection Hrun1 as <-; cbn [state]; rewrite Hb; auto.
      + rewrite (notify_broken_run (mkReport x) self last Hn Hl Hi) in Hrun1.
        injection Hrun1 as <-; cbn [state]; rewrite Hb; auto.
    - rewrite (notify_without_last (mkReport x) self Hn Hl) in Hrun1.
      discriminate. }
  assert (Hnext : dispatcher_report_id (mkReport (next_id 10000 x)) =
                  stored_id self (mkReport x) + 1).
  { rewrite stored_id_next, Hmax; reflexivity. }
  exists d1; eexists.
  split; [exact Hrun1 |].
  split; [exact (notify_successor _ d1 _ Hs1 Hl1 Hnext) |].
  rewrite is_blocked_eq; cbn [state].
  destruct Hd1 as [-> | ->]; split; reflexivity.
Qed.

Lemma blocked_then_successive_pair_is_final_witness :
  reachable (mkBlockingDetector BLOCKED (Some 7) 10000 0) /\
  exists d1 d2,
    notify_poison_received (mkReport 10000)
      (mkBlockingDetector BLOCKED (Some 7) 10000 0) = Returned tt d1 /\
    notify_poison_received (mkReport 0) d1 = Returned tt d2 /\
    state d2 = FINAL.
Proof.
  assert (Hreach : reachable (mkBlockingDetector BLOCKED (Some 7) 10000 0)).
  { exists [NotifyPoisonReceived (mkReport 5); NotifyPoisonReceived (mkReport 6);
            NotifyPoisonReceived (mkReport 7)].
    reflexivity. }
  split; [exact Hreach |].
  destruct (blocked_then_successive_pair_is_final _ 10000 Hreach eq_refl)
    as (d1 & d2 & H1 & H2 & Hs & _).
  exists d1, d2; repeat split; assumption.
Defined.

Lemma perform_all_counter (cs : list call) :
  forall d,
    detector_inv d ->
    exists d',
      perform_all cs d = Returned tt d' /\
      last_message_id d' =
      (last_message_id d + Z.of_nat (length (filter is_probe cs)))
        mod (max_id_value d + 1).
Proof.
  induction cs as [| c cs IH]; intros d Hinv.
  - exists d; split; [reflexivity |].
    cbn [filter length]; destruct Hinv as (_ & Hc & _).
    rewrite Z.add_0_r, Z.mod_small by lia; reflexivity.
  - destruct (perform_returns c d Hinv) as (d1 & Hrun1 & Hinv1).
    destruct (IH d1 Hinv1) as (d' & Hrun & Hcnt).
    exists d'; split.
    { cbn [perform_all]; unfold bind; rewrite Hrun1; exact Hrun. }
    rewrite Hcnt.
    assert (Hmax1 : max_id_value d1 = max_id_value d).
    { destruct Hinv as (-> & _), Hinv1 as (-> & _); reflexivity. }
    destruct c as [message | |]; cbn [filter is_probe length].
    + pose proof (notify_frame message d) as [Hc _].
      cbn [perform] in Hrun1; rewrite Hrun1 in Hc; cbn [self_after] in Hc.
      rewrite Hc, Hmax1; reflexivity.
    + cbn in Hrun1; injection Hrun1 as <-; reflexivity.
    + cbn [perform] in Hrun1; unfold bind, ret in Hrun1.
      rewrite get_message_id_eq in Hrun1; injection Hrun1 as <-.
      cbn [last_message_id max_id_value].
      fold (next_id (max_id_value d) (last_message_id d)).
      destruct Hinv as (_ & Hc & _).
      rewrite (next_id_mod _ _ Hc), Z.add_mod_idemp_l by lia.
      f_equal; lia.
Qed.

(** X10: after any sequence of calls on a fresh detector the counter
    is the number of [get_message_id] calls made so far modulo 10001,
    wherever notifications and [is_blocked] calls stand between them;
    this is the id the next [get_message_id] returns. *)
Theorem counter_counts_probes_modulo :
  forall cs : list call,
  exists d d',
    perform_all cs __init__ = Returned tt d /\
    last_message_id d =
      Z.of_nat (length (filter is_probe cs)) mod 10001 /\
    get_message_id d =
      Returned (Z.of_nat (length (filter is_probe cs)) mod 10001) d'.
Proof.
  intros cs.
  destruct (perform_all_counter cs __init__ detector_inv_init)
    as (d & Hrun & Hcnt).
  cbn [last_message_id max_id_value __init__] in Hcnt.
  rewrite Z.add_0_l in Hcnt; change (10000 + 1) with 10001 in Hcnt.
  exists d; eexists; split; [exact Hrun |]; split; [exact Hcnt |].
  rewrite get_message_id_eq, Hcnt; reflexivity.
Qed.
